(** * Extension discovery and forwarding gateway of the dashboard back end

    A shallow embedding of [pkg/endpoints/utils.go]: the route registration
    functions ([RegisterEndpoints], [RegisterWebsocket],
    [RegisterHealthProbes], [RegisterReadinessProbes], [RegisterExtension]),
    the [Extension] descriptor with [getPort], and the forwarding handler
    [HandleExtension].

    The Go packages the file imports are represented by small modules that
    record what the program hands to them: a [restful.WebService] is its root
    path, its MIME defaults and the routes given to [Route], in call order; a
    [restful.Container] is the web services given to [Add], in call order;
    the logger is the list of entries handed to it so far.  Run-time panics
    of Go (an index out of range, a nil pointer dereference) are explicit
    results.  What the router and the network do with what they are given
    is outside the package and is not modelled; of the reverse proxy only
    the single round trip and the default error handling are, after the
    documentation of the library. *)

From Stdlib Require Import ZArith Ascii.
From stdpp Require Import base option list strings gmap pretty.

Open Scope string_scope.
Open Scope list_scope.
Open Scope Z_scope.

(** ** Run-time model: state passing with panics *)

Inductive panic : Type :=
  | IndexOutOfRange (index : nat) (len : nat)
  | NilPointerDereference.

Inductive result (S A : Type) : Type :=
  | Returned (s : S) (a : A)
  | Panicked (s : S) (p : panic).

Arguments Returned {S A} s a.
Arguments Panicked {S A} s p.

Definition M (S A : Type) : Type := S → result S A.

Global Instance M_ret {S} : MRet (M S) := λ A a s, Returned s a.

Global Instance M_bind {S} : MBind (M S) := λ A B k m s,
  match m s with
  | Returned s' a => k a s'
  | Panicked s' p => Panicked s' p
  end.

Definition raise {S A} (p : panic) : M S A := λ s, Panicked s p.

Definition modify {S} (f : S → S) : M S unit := λ s, Returned (f s) tt.

(** [for _, x := range xs { body x }] over a slice. *)
Fixpoint range {S A} (xs : list A) (body : A → M S unit) : M S unit :=
  match xs with
  | [] => mret tt
  | x :: xs' => body x ;; range xs' body
  end.

(** [for k, v := range m { body k v }] over a Go map.  Go leaves the order
    unspecified; the embedding fixes the order of [map_to_list], and
    [range_permutation_urlKey] below shows that the loop of
    [RegisterExtension] does not depend on it. *)
Definition range_map {S} (m : gmap string string)
    (body : string → string → M S unit) : M S unit :=
  range (map_to_list m) (λ kv, body kv.1 kv.2).

(** ** The imported packages *)

(** [strconv.Itoa]: the decimal rendering of an integer. *)
Module strconv.
Definition Itoa (i : Z) : string := pretty i.
End strconv.

(** [k8s.io/api/core/v1] and [k8s.io/apimachinery/pkg/apis/meta/v1]:
    the fields of a service that the program reads. *)
Module metav1.
Record ObjectMeta : Type := {
  Name : string;
  Annotations : gmap string string
}.
Record ListOptions : Type := { LabelSelector : string }.
End metav1.

Module corev1.
(** [Port] is an [int32]; the program only renders it in decimal. *)
Record ServicePort : Type := { Port : Z }.
Record ServiceSpec : Type := { Ports : list ServicePort }.
Record Service : Type := {
  ObjectMeta : metav1.ObjectMeta;
  Spec : ServiceSpec
}.
Record ServiceList : Type := { Items : list Service }.
End corev1.

(** [k8s.io/client-go/kubernetes]: the one call the program makes,
    [CoreV1().Services(namespace).List(opts)], answers with a service list
    or with an error (rendered by its message). *)
Module k8sclientset.
Definition error : Type := string.
Record Interface : Type := {
  ListServices :
    string → metav1.ListOptions → corev1.ServiceList + error
}.
End k8sclientset.

(** [pkg/logging]: the entries written to [logging.Log]. *)
Module logging.
Inductive Level : Type := InfoLevel | ErrorLevel | DebugLevel.
Record Entry : Type := { level : Level; message : string }.
Definition Logger : Type := list Entry.
Definition write (lv : Level) (msg : string) (lg : Logger) : Logger :=
  lg ++ [{| level := lv; message := msg |}].
End logging.

(** [github.com/emicklei/go-restful]: web services as the program builds
    them.  [F] is the type of route functions. *)
Module restful.
Definition MIME_JSON : string := "application/json".

Section Routes.
Context {F : Type}.

Record Route : Type := {
  Method : string;
  Path : string;            (* the sub-path given to GET/PUT/POST/DELETE *)
  Consumes : list string;
  Produces : list string;
  Function : option F
}.

Record WebService : Type := {
  rootPath : string;
  consumes : list string;
  produces : list string;
  routes : list Route
}.

Record RouteBuilder : Type := {
  httpMethod : string;
  currentPath : string;
  function : option F
}.

Record Container : Type := { webServices : list WebService }.

(** [new(restful.WebService)] *)
Definition new_WebService : WebService :=
  {| rootPath := ""; consumes := []; produces := []; routes := [] |}.

Definition set_Path (w : WebService) (root : string) : WebService :=
  {| rootPath := root; consumes := consumes w;
     produces := produces w; routes := routes w |}.

Definition set_Consumes (w : WebService) (ms : list string) : WebService :=
  {| rootPath := rootPath w; consumes := ms;
     produces := produces w; routes := routes w |}.

Definition set_Produces (w : WebService) (ms : list string) : WebService :=
  {| rootPath := rootPath w; consumes := consumes w;
     produces := ms; routes := routes w |}.

Definition Method_ (m : string) (w : WebService) (subPath : string)
    : RouteBuilder :=
  {| httpMethod := m; currentPath := subPath; function := None |}.

Definition GET := Method_ "GET".
Definition PUT := Method_ "PUT".
Definition POST := Method_ "POST".
Definition DELETE := Method_ "DELETE".

Definition To (b : RouteBuilder) (f : F) : RouteBuilder :=
  {| httpMethod := httpMethod b; currentPath := currentPath b;
     function := Some f |}.

(** The route a builder stands for, with the MIME defaults of its
    web service. *)
Definition Build (w : WebService) (b : RouteBuilder) : Route :=
  {| Method := httpMethod b; Path := currentPath b;
     Consumes := consumes w; Produces := produces w;
     Function := function b |}.

(** [ws.Route(builder)]: one more route at the end of the list.  The
    library ends the process instead when the sub-path is not a valid path
    expression; that exit is not modelled either. *)
Definition Route_ (w : WebService) (b : RouteBuilder) : WebService :=
  {| rootPath := rootPath w; consumes := consumes w;
     produces := produces w; routes := routes w ++ [Build w b] |}.

(** [container.Add(ws)].  The library ends the process instead when the
    container already holds a web service with the same root path; that
    exit is not modelled, so a [Returned] result describes the run of the
    program as long as the library accepts the registration. *)
Definition Add (c : Container) (w : WebService) : Container :=
  {| webServices := webServices c ++ [w] |}.
End Routes.

Arguments Route : clear implicits.
Arguments WebService : clear implicits.
Arguments RouteBuilder : clear implicits.
Arguments Container : clear implicits.
End restful.

(** ** Package endpoints *)

(** extensionLabel - service with this extensionLabel is registered as
    extension *)
Definition extensionLabel : string := "tekton-dashboard-extension=true".

(** urlKey - extension path is specified by the annotation with the urlKey *)
Definition urlKey : string := "tekton-dashboard-endpoints".

(** Resource: the clients.  [PipelineClient] is not used by the functions
    embedded here. *)
Record Resource : Type := { K8sClient : k8sclientset.Interface }.

(** Back-end extension: requests to the URL are passed through to the Port
    of the Name service. *)
Record Extension : Type := {
  Name : string;
  URL : string;
  Port : string
}.

(** The handler methods of [Resource] that [RegisterEndpoints] binds; their
    bodies live in other files of the package. *)
Inductive ResourceMethod : Type :=
  | getAllPipelines | getPipeline
  | getAllPipelineRuns | getPipelineRun | updatePipelineRun
  | getAllPipelineResources | getPipelineResource
  | getAllTasks | getTask
  | getAllTaskRuns | getTaskRun
  | getPodLog | getTaskRunLog | getPipelineRunLog
  | getAllCredentials | getCredential | createCredential
  | updateCredential | deleteCredential
  | establishPipelineLogsWebsocket | establishPipelineRunsWebsocket
  | checkHealth.

(** Route functions are method values: [r.getTask], or [ext.HandleExtension]
    bound to its own copy of [ext]. *)
Inductive Handler : Type :=
  | ResourceHandler (m : ResourceMethod)
  | ExtensionHandler (ext : Extension).

Abbreviation WebService := (restful.WebService Handler).
Abbreviation Container := (restful.Container Handler).
Abbreviation Route := (restful.Route Handler).

(** The process state the registration functions act on: the container
    their [container] argument points to, and the logger. *)
Record State : Type := {
  container : Container;
  Log : logging.Logger
}.

(** The state while a function holds a web service [ws] under
    construction. *)
Record Frame : Type := {
  outer : State;
  ws : WebService
}.

Definition log_State (lv : logging.Level) (msg : string) : M State unit :=
  modify (λ s, {| container := container s;
                  Log := logging.write lv msg (Log s) |}).

Definition log_Frame (lv : logging.Level) (msg : string) : M Frame unit :=
  modify (λ fr,
    {| outer := {| container := container (outer fr);
                   Log := logging.write lv msg (Log (outer fr)) |};
       ws := ws fr |}).

(** [ws.Route(b)] on the web service under construction. *)
Definition ws_Route (b : WebService → restful.RouteBuilder Handler)
    : M Frame unit :=
  modify (λ fr, {| outer := outer fr;
                   ws := restful.Route_ (ws fr) (b (ws fr)) |}).

(** Run [body] with a local web service starting as [w]; its final value is
    the result.  When [body] panics the local is unreachable and only the
    outer state remains. *)
Definition with_ws (w : WebService) (body : M Frame unit)
    : M State WebService :=
  λ s, match body {| outer := s; ws := w |} with
       | Returned fr _ => Returned (outer fr) (ws fr)
       | Panicked fr p => Panicked (outer fr) p
       end.

Definition container_Add (w : WebService) : M State unit :=
  modify (λ s, {| container := restful.Add (container s) w; Log := Log s |}).

(** getPort - this get the port of the service *)
Definition getPort {S} (svc : corev1.Service) : M S string :=
  match corev1.Ports (corev1.Spec svc) !! 0%nat with
  | Some p => mret (strconv.Itoa (corev1.Port p))
  | None => raise (IndexOutOfRange 0 (length (corev1.Ports (corev1.Spec svc))))
  end.

(** The web service every registration function starts from:
    [new(restful.WebService)] with [Path(root)], [Consumes(MIME_JSON)] and
    [Produces(MIME_JSON)]. *)
Definition json_WebService (root : string) : WebService :=
  restful.set_Produces
    (restful.set_Consumes
       (restful.set_Path restful.new_WebService root)
       [restful.MIME_JSON])
    [restful.MIME_JSON].

(** [wsv1.Route(wsv1.VERB(path).To(r.method))] *)
Definition resource_Route
    (verb : WebService → string → restful.RouteBuilder Handler)
    (path : string) (m : ResourceMethod) : M Frame unit :=
  ws_Route (λ w, restful.To (verb w path) (ResourceHandler m)).

(** RegisterEndpoints - this registers our actual endpoints! *)
Definition RegisterEndpoints (r : Resource) : M State unit :=
  wsv1 ← with_ws (json_WebService "/v1/namespaces")
    (log_Frame logging.InfoLevel "Adding v1, and API for pipelines" ;;
     resource_Route restful.GET "/{namespace}/pipeline" getAllPipelines ;;
     resource_Route restful.GET "/{namespace}/pipeline/{name}" getPipeline ;;
     resource_Route restful.GET "/{namespace}/pipelinerun" getAllPipelineRuns ;;
     resource_Route restful.GET "/{namespace}/pipelinerun/{name}" getPipelineRun ;;
     resource_Route restful.PUT "/{namespace}/pipelinerun/{name}" updatePipelineRun ;;
     resource_Route restful.GET "/{namespace}/pipelineresource" getAllPipelineResources ;;
     resource_Route restful.GET "/{namespace}/pipelineresource/{name}" getPipelineResource ;;
     resource_Route restful.GET "/{namespace}/task" getAllTasks ;;
     resource_Route restful.GET "/{namespace}/task/{name}" getTask ;;
     resource_Route restful.GET "/{namespace}/taskrun" getAllTaskRuns ;;
     resource_Route restful.GET "/{namespace}/taskrun/{name}" getTaskRun ;;
     resource_Route restful.GET "/{namespace}/log/{name}" getPodLog ;;
     resource_Route restful.GET "/{namespace}/taskrunlog/{name}" getTaskRunLog ;;
     resource_Route restful.GET "/{namespace}/pipelinerunlog/{name}" getPipelineRunLog ;;
     resource_Route restful.GET "/{namespace}/credentials/" getAllCredentials ;;
     resource_Route restful.GET "/{namespace}/credentials/{id}" getCredential ;;
     resource_Route restful.POST "/{namespace}/credentials/" createCredential ;;
     resource_Route restful.PUT "/{namespace}/credentials/{id}" updateCredential ;;
     resource_Route restful.DELETE "/{namespace}/credentials/{id}" deleteCredential);
  container_Add wsv1.

(** RegisterWebsocket - this registers a websocket with which we can send
    log information to *)
Definition RegisterWebsocket (r : Resource) : M State unit :=
  log_State logging.InfoLevel "Adding API for websocket" ;;
  wsv2 ← with_ws (json_WebService "/v1/websocket")
    (resource_Route restful.GET "/logs" establishPipelineLogsWebsocket ;;
     resource_Route restful.GET "/pipelineruns" establishPipelineRunsWebsocket);
  container_Add wsv2.

(** RegisterHealthProbes - this registers the /health endpoint *)
Definition RegisterHealthProbes (r : Resource) : M State unit :=
  log_State logging.InfoLevel "Adding API for health" ;;
  wsv3 ← with_ws (json_WebService "/health")
    (resource_Route restful.GET "/" checkHealth);
  container_Add wsv3.

(** RegisterReadinessProbes - this registers the /readiness endpoint *)
Definition RegisterReadinessProbes (r : Resource) : M State unit :=
  log_State logging.InfoLevel "Adding API for readiness" ;;
  wsv4 ← with_ws (json_WebService "/readiness")
    (resource_Route restful.GET "/" checkHealth);
  container_Add wsv4.

(** The body of the inner loop of [RegisterExtension], for one annotation
    [key: url] of [svc]. *)
Definition RegisterExtension_annotation (svc : corev1.Service)
    (key url : string) : M Frame unit :=
  if decide (key = urlKey) then
    log_Frame logging.DebugLevel ("extension URL: " +:+ url) ;;
    port ← getPort svc;
    let ext := {| Name := metav1.Name (corev1.ObjectMeta svc);
                  URL := url;
                  Port := port |} in
    ws_Route (λ w, restful.To (restful.POST w url) (ExtensionHandler ext))
  else mret tt.

(** The body of the outer loop of [RegisterExtension], for one service. *)
Definition RegisterExtension_service (svc : corev1.Service) : M Frame unit :=
  range_map (metav1.Annotations (corev1.ObjectMeta svc))
            (RegisterExtension_annotation svc).

(** RegisterExtension - this discovers the extensions and registers them as
    the REST API extension *)
Definition RegisterExtension (r : Resource) (namespace : string)
    : M State unit :=
  log_State logging.InfoLevel "Adding API for extensions" ;;
  match k8sclientset.ListServices (K8sClient r) namespace
          {| metav1.LabelSelector := extensionLabel |} with
  | inr err =>
      log_State logging.ErrorLevel ("no extension found: " +:+ err)
  | inl svcs =>
      ws ← with_ws (json_WebService "/")
             (range (corev1.Items svcs) RegisterExtension_service);
      container_Add ws
  end.

(** ** The forwarding handler

    [net/url] and [net/http/httputil] are outside the package: [url.Parse]
    and the proxy's [ServeHTTP] are parameters.  [url.Parse] answers with a
    URL or with an error, in which case its first result is nil. *)
Section Gateway.
Context {URL Request ResponseWriter : Type}.
Variable url_Parse : string → URL + string.
Variable proxy_ServeHTTP : URL → ResponseWriter → Request → ResponseWriter.

(** The string [HandleExtension] gives to [url.Parse]. *)
Definition target_string (ext : Extension) : string :=
  "http://" +:+ Name ext +:+ ":" +:+ Port ext +:+ "/".

(** [target, _ := url.Parse(s)]: the error is dropped, the pointer kept. *)
Definition parsed_target (s : string) : option URL :=
  match url_Parse s with
  | inl u => Some u
  | inr _ => None
  end.

(** [httputil.NewSingleHostReverseProxy(target)] followed by
    [proxy.ServeHTTP(response, request)]: the proxy reads the fields of
    [target], so a nil target is a nil pointer dereference. *)
Definition SingleHostReverseProxy_ServeHTTP (target : option URL)
    (request : Request) : M ResponseWriter unit :=
  match target with
  | Some u => modify (λ response, proxy_ServeHTTP u response request)
  | None => raise NilPointerDereference
  end.

(** HandleExtension - this route request to the extention path to the
    extention service *)
Definition HandleExtension (ext : Extension) (request : Request)
    : M ResponseWriter unit :=
  let target := parsed_target (target_string ext) in
  SingleHostReverseProxy_ServeHTTP target request.
End Gateway.

(** ** The reverse proxy behind the handler

    [net/http/httputil] is outside the package.  Its
    [ReverseProxy.ServeHTTP] is modelled after the documentation of the
    library, for a proxy as [HandleExtension] makes it: built by
    [NewSingleHostReverseProxy] and left alone, so with the default
    transport, no [ModifyResponse] and no [ErrorHandler].  The proxy makes
    the outbound request out of the inbound one and the target and gives it
    to the transport, once.  When the transport answers with an error (the
    host is not resolved, the connection is refused, ...) the default error
    handler logs the error and answers with the status 502; otherwise the
    upstream response is copied to the response writer.  The transport, the
    making of the outbound request and the copying are parameters. *)
Module http.
Definition StatusInternalServerError : nat := 500.
Definition StatusBadGateway : nat := 502.

(** A response writer: the status once [WriteHeader] has written it, the
    header map and the body written so far. *)
Record ResponseWriter : Type := {
  statusCode : option nat;
  header : gmap string (list string);
  body : string
}.

(** [rw.WriteHeader(code)]: the first call fixes the status, a later one is
    ignored. *)
Definition WriteHeader (code : nat) (rw : ResponseWriter) : ResponseWriter :=
  match statusCode rw with
  | Some _ => rw
  | None => {| statusCode := Some code; header := header rw; body := body rw |}
  end.
End http.

Module httputil.
Section ReverseProxy.
Context {URL Request Response : Type}.

(** What serving one request leaves behind: the response writer, the
    requests given to the transport, in order, and the proxy's error log. *)
Record Exchange : Type := {
  writer : http.ResponseWriter;
  roundTrips : list Request;
  errorLog : list string
}.

Variable outbound : URL → Request → Request.
Variable RoundTrip : Request → Response + string.
Variable copyResponse : Response → http.ResponseWriter → http.ResponseWriter.

(** [p.defaultErrorHandler(rw, outreq, err)] *)
Definition defaultErrorHandler (err : string) (ex : Exchange) : Exchange :=
  {| writer := http.WriteHeader http.StatusBadGateway (writer ex);
     roundTrips := roundTrips ex;
     errorLog := errorLog ex ++ ["http: proxy error: " +:+ err] |}.

(** [proxy.ServeHTTP(rw, req)] for the proxy with the target [target]. *)
Definition ServeHTTP (target : URL) (ex : Exchange) (req : Request)
    : Exchange :=
  let outreq := outbound target req in
  let sent := {| writer := writer ex;
                 roundTrips := roundTrips ex ++ [outreq];
                 errorLog := errorLog ex |} in
  match RoundTrip outreq with
  | inr err => defaultErrorHandler err sent
  | inl res => {| writer := copyResponse res (writer sent);
                  roundTrips := roundTrips sent;
                  errorLog := errorLog sent |}
  end.
End ReverseProxy.

Arguments Exchange : clear implicits.
End httputil.

(** ** What one service contributes *)

(** The annotation that names the route path, if the service has it. *)
Definition declared_path (svc : corev1.Service) : option string :=
  metav1.Annotations (corev1.ObjectMeta svc) !! urlKey.

(** The number of the first declared port, if there is one. *)
Definition first_port (svc : corev1.Service) : option Z :=
  corev1.Port <$> corev1.Ports (corev1.Spec svc) !! 0%nat.

(** The descriptor built from [svc] for the path [url] and port number [p]. *)
Definition extension_of (svc : corev1.Service) (url : string) (p : Z)
    : Extension :=
  {| Name := metav1.Name (corev1.ObjectMeta svc);
     URL := url;
     Port := strconv.Itoa p |}.

(** The POST route bound to an extension on a web service with the JSON
    defaults. *)
Definition extension_route (ext : Extension) : Route :=
  {| restful.Method := "POST";
     restful.Path := URL ext;
     restful.Consumes := [restful.MIME_JSON];
     restful.Produces := [restful.MIME_JSON];
     restful.Function := Some (ExtensionHandler ext) |}.

(** The route of a service that has both the annotation and a port. *)
Definition service_route (svc : corev1.Service) : option Route :=
  url ← declared_path svc;
  p ← first_port svc;
  Some (extension_route (extension_of svc url p)).

(** A service the loop body gets through: no annotation, or a port. *)
Definition passable (svc : corev1.Service) : Prop :=
  declared_path svc = None ∨ is_Some (first_port svc).

Global Instance passable_dec svc : Decision (passable svc).
Proof. unfold passable. apply _. Defined.

(** The frame after the debug entry for [url] was written. *)
Definition debug_url (url : string) (fr : Frame) : Frame :=
  {| outer := {| container := container (outer fr);
                 Log := logging.write logging.DebugLevel
                          ("extension URL: " +:+ url) (Log (outer fr)) |};
     ws := ws fr |}.

(** ** Notions used to state the properties *)

(** A loop body over annotations that acts, by [f], on the value of
    [urlKey] only: the shape of the inner loop of [RegisterExtension]. *)
Definition on_urlKey {S} (f : string → M S unit) (key url : string)
    : M S unit :=
  if decide (key = urlKey) then f url else mret tt.

(** A web service still carrying the JSON defaults it was created with. *)
Definition json_defaults (w : WebService) : Prop :=
  restful.consumes w = [restful.MIME_JSON] ∧
  restful.produces w = [restful.MIME_JSON].

(** The state a result ends in, returned or panicked. *)
Definition final {S A} (res : result S A) : S :=
  match res with
  | Returned s _ => s
  | Panicked s _ => s
  end.

(** The result is a normal return. *)
Definition returns {S A} (res : result S A) : Prop :=
  match res with
  | Returned _ _ => True
  | Panicked _ _ => False
  end.

(** The extensions bound to the routes of a web service. *)
Definition extensions_of (w : WebService) : list Extension :=
  omap (λ r, match restful.Function r with
             | Some (ExtensionHandler ext) => Some ext
             | _ => None
             end) (restful.routes w).

(** The routes of a web service registered for the path [u]. *)
Definition routes_at (u : string) (w : WebService) : list Route :=
  filter (λ r, restful.Path r = u) (restful.routes w).

(** Log entries, by level. *)
Definition debug_entry (url : string) : logging.Entry :=
  {| logging.level := logging.DebugLevel;
     logging.message := "extension URL: " +:+ url |}.

(** The frame after the loop has got through [svcs]: one debug entry per
    annotated service, one route per service with annotation and port. *)
Definition after_services (svcs : list corev1.Service) (fr : Frame) : Frame :=
  {| outer := {| container := container (outer fr);
                 Log := Log (outer fr) ++
                        (debug_entry <$> omap declared_path svcs) |};
     ws := {| restful.rootPath := restful.rootPath (ws fr);
              restful.consumes := restful.consumes (ws fr);
              restful.produces := restful.produces (ws fr);
              restful.routes :=
                restful.routes (ws fr) ++ omap service_route svcs |} |}.

Definition info_entry (msg : string) : logging.Entry :=
  {| logging.level := logging.InfoLevel; logging.message := msg |}.

Definition error_entry (msg : string) : logging.Entry :=
  {| logging.level := logging.ErrorLevel; logging.message := msg |}.

(** The web service a completed pass over [svcs] adds. *)
Definition extension_WebService (svcs : list corev1.Service) : WebService :=
  {| restful.rootPath := "/";
     restful.consumes := [restful.MIME_JSON];
     restful.produces := [restful.MIME_JSON];
     restful.routes := omap service_route svcs |}.

(** The answer of the cluster to the list query of [RegisterExtension]. *)
Definition list_answer (r : Resource) (namespace : string)
    : corev1.ServiceList + k8sclientset.error :=
  k8sclientset.ListServices (K8sClient r) namespace
    {| metav1.LabelSelector := extensionLabel |}.

(** The routes of [RegisterEndpoints], as the source lists them. *)
Definition primary_routes : list (string * string * ResourceMethod) :=
  [ ("GET", "/{namespace}/pipeline", getAllPipelines);
    ("GET", "/{namespace}/pipeline/{name}", getPipeline);
    ("GET", "/{namespace}/pipelinerun", getAllPipelineRuns);
    ("GET", "/{namespace}/pipelinerun/{name}", getPipelineRun);
    ("PUT", "/{namespace}/pipelinerun/{name}", updatePipelineRun);
    ("GET", "/{namespace}/pipelineresource", getAllPipelineResources);
    ("GET", "/{namespace}/pipelineresource/{name}", getPipelineResource);
    ("GET", "/{namespace}/task", getAllTasks);
    ("GET", "/{namespace}/task/{name}", getTask);
    ("GET", "/{namespace}/taskrun", getAllTaskRuns);
    ("GET", "/{namespace}/taskrun/{name}", getTaskRun);
    ("GET", "/{namespace}/log/{name}", getPodLog);
    ("GET", "/{namespace}/taskrunlog/{name}", getTaskRunLog);
    ("GET", "/{namespace}/pipelinerunlog/{name}", getPipelineRunLog);
    ("GET", "/{namespace}/credentials/", getAllCredentials);
    ("GET", "/{namespace}/credentials/{id}", getCredential);
    ("POST", "/{namespace}/credentials/", createCredential);
    ("PUT", "/{namespace}/credentials/{id}", updateCredential);
    ("DELETE", "/{namespace}/credentials/{id}", deleteCredential) ].

(** The web service [RegisterEndpoints] adds. *)
Definition primary_WebService : WebService :=
  {| restful.rootPath := "/v1/namespaces";
     restful.consumes := [restful.MIME_JSON];
     restful.produces := [restful.MIME_JSON];
     restful.routes :=
       (λ '(verb, path, m),
          {| restful.Method := verb;
             restful.Path := path;
             restful.Consumes := [restful.MIME_JSON];
             restful.Produces := [restful.MIME_JSON];
             restful.Function := Some (ResourceHandler m) |})
       <$> primary_routes |}.

(** ** Fixtures: a client with a canned answer, and a few services *)

Definition fakeResource (answer : list corev1.Service + k8sclientset.error)
    : Resource :=
  {| K8sClient :=
       {| k8sclientset.ListServices := λ _ _,
            match answer with
            | inl svcs => inl {| corev1.Items := svcs |}
            | inr err => inr err
            end |} |}.

Definition newService (name : string) (annotations : list (string * string))
    (ports : list Z) : corev1.Service :=
  {| corev1.ObjectMeta :=
       {| metav1.Name := name;
          metav1.Annotations := list_to_map annotations |};
     corev1.Spec :=
       {| corev1.Ports := (λ p, {| corev1.Port := p |}) <$> ports |} |}.

Definition emptyState : State :=
  {| container := {| restful.webServices := [] |}; Log := [] |}.

(** Service [foo]: annotation [/foo-ext], ports 8080 and 9090. *)
Definition foo : corev1.Service :=
  newService "foo" [("owner", "team-a"); (urlKey, "/foo-ext")] [8080; 9090].

(** Service [bar]: labelled, no endpoint annotation. *)
Definition bar : corev1.Service := newService "bar" [("owner", "team-b")] [80].

(** Service [portless]: endpoint annotation, empty port list. *)
Definition portless : corev1.Service :=
  newService "portless" [(urlKey, "/portless")] [].

(** Services [first] and [second] declare the same path. *)
Definition first : corev1.Service :=
  newService "first" [(urlKey, "/shared")] [8081].
Definition second : corev1.Service :=
  newService "second" [(urlKey, "/shared")] [8082].

(** Service [zero]: endpoint annotation, first port number 0. *)
Definition zero : corev1.Service := newService "zero" [(urlKey, "/zero")] [0].

(** ** The properties at stake *)

(** The extensions bound to routes when the loop over [svcs] ends, by
    returning or by panicking. *)
Definition discovered (svcs : list corev1.Service) (st : State)
    : list Extension :=
  extensions_of
    (ws (final (range svcs RegisterExtension_service
                  {| outer := st; ws := json_WebService "/" |}))).

(** A port string that is the decimal rendering of a positive integer. *)
Definition positive_port (s : string) : Prop :=
  ∃ n : Z, 0 < n ∧ s = strconv.Itoa n.

(** Last write wins: after a completed pass over [svcs], the web service
    it added holds exactly one route for the path [u], and that route is the
    one of the last service of [svcs] that declares [u]. *)
Definition single_route_last_wins (r : Resource) (namespace : string)
    (st : State) (svcs : list corev1.Service) (u : string) : Prop :=
  list_answer r namespace = inl {| corev1.Items := svcs |} →
  ∀ st', RegisterExtension r namespace st = Returned st' tt →
    ∃ w route,
      last (restful.webServices (container st')) = Some w ∧
      routes_at u w = [route] ∧
      last (filter (λ svc, declared_path svc = Some u) svcs) ≫= service_route
        = Some route.

(** Every extension built during the pass over [svcs] has the number of
    the first port of its service as its port, and that port is a positive
    integer. *)
Definition first_port_positive (svcs : list corev1.Service) (st : State)
    : Prop :=
  ∀ ext, ext ∈ discovered svcs st →
    ∃ svc p, svc ∈ svcs ∧ first_port svc = Some p ∧
             Port ext = strconv.Itoa p ∧ positive_port (Port ext).

(** ** Notions for the further properties *)

(** Two services that agree on what [RegisterExtension] reads: the name,
    the endpoint annotation and the first port. *)
Definition same_extension_data (svc svc' : corev1.Service) : Prop :=
  metav1.Name (corev1.ObjectMeta svc) = metav1.Name (corev1.ObjectMeta svc') ∧
  declared_path svc = declared_path svc' ∧
  first_port svc = first_port svc'.

(** What a router tells two routes of one web service apart by. *)
Definition route_key (r : Route) : string * string :=
  (restful.Method r, restful.Path r).

(** A string without the character [:]. *)
Fixpoint colon_free (s : string) : Prop :=
  match s with
  | EmptyString => True
  | String c s' => c ≠ ":"%char ∧ colon_free s'
  end.

(** Service [foo'] agrees with [foo] on name, endpoint annotation and first
    port, and differs in everything else. *)
Definition foo' : corev1.Service :=
  newService "foo" [(urlKey, "/foo-ext"); ("tier", "backend")] [8080].

(** A request being served with nothing written to the response yet and
    nothing given to the transport. *)
Definition freshExchange {Request : Type} : httputil.Exchange Request :=
  {| httputil.writer :=
       {| http.statusCode := None; http.header := ∅; http.body := "" |};
     httputil.roundTrips := [];
     httputil.errorLog := [] |}.

(** A transport whose every connection is refused. *)
Definition refusingTransport (req : string) : unit + string :=
  inr "dial tcp: connection refused".

(** ** Basic facts about the run-time model *)

Lemma bind_run {S A B} (m : M S A) (k : A → M S B) (s : S) :
  (m ≫= k) s =
  match m s with
  | Returned s' a => k a s'
  | Panicked s' p => Panicked s' p
  end.
Proof. reflexivity. Qed.

(** Unfold the primitive state operations and compute. *)
Ltac run_ops :=
  unfold log_State, log_Frame, container_Add, ws_Route, with_ws, modify,
    raise, logging.write;
  simpl.

Lemma range_app {S A} (xs ys : list A) (body : A → M S unit) (s : S) :
  range (xs ++ ys) body s = (range xs body ;; range ys body) s.
Proof.
  revert s. induction xs as [|x xs IH]; intros s; [done|].
  simpl. rewrite !bind_run. destruct (body x s) as [s' a|s' p]; [|done].
  by rewrite IH, bind_run.
Qed.

(** ** The inner loop: at most one annotation matters *)

Section UrlKeyLoop.
Context {S : Type} (f : string → M S unit).

Lemma range_no_urlKey (l : list (string * string)) (s : S) :
urlKey ∉ l.*1 →
range l (λ kv, on_urlKey f kv.1 kv.2) s = Returned s tt.
Proof.
revert s. induction l as [|[k v] l IH]; intros s Hk; [done|].
rewrite fmap_cons, not_elem_of_cons in Hk. destruct Hk as [Hne Hk].
simpl. rewrite bind_run. unfold on_urlKey at 1. simpl.
rewrite decide_False by done. by apply IH.
Qed.

Lemma range_urlKey (l : list (string * string)) (s : S) :
NoDup l.*1 →
range l (λ kv, on_urlKey f kv.1 kv.2) s =
match (list_to_map l : gmap string string) !! urlKey with
| Some url => f url s
| None => Returned s tt
end.
Proof.
revert s. induction l as [|[k v] l IH]; intros s Hnd; [done|].
rewrite fmap_cons, NoDup_cons in Hnd. destruct Hnd as [Hk Hnd].
simpl. rewrite bind_run. unfold on_urlKey at 1. simpl.
destruct (decide (k = urlKey)) as [->|Hne].
- rewrite lookup_insert_eq.
  destruct (f v s) as [s' []|s' p]; [|done].
  by apply range_no_urlKey.
- rewrite lookup_insert_ne by done. by apply IH.
Qed.

(** Whatever order Go visits the annotations in, the loop does the same. *)
Lemma range_permutation_urlKey (m : gmap string string)
  (l : list (string * string)) (s : S) :
l ≡ₚ map_to_list m →
range l (λ kv, on_urlKey f kv.1 kv.2) s =
match m !! urlKey with
| Some url => f url s
| None => Returned s tt
end.
Proof.
intros Hl.
assert (NoDup l.*1) as Hnd.
{ rewrite Hl. apply NoDup_fst_map_to_list. }
rewrite range_urlKey by done.
by rewrite (list_to_map_proper _ _ Hnd Hl), list_to_map_to_list.
Qed.
End UrlKeyLoop.

(** ** The loop body, case by case *)

Lemma getPort_first_port {S} (svc : corev1.Service) (s : S) :
  getPort svc s =
  match first_port svc with
  | Some p => Returned s (strconv.Itoa p)
  | None => Panicked s (IndexOutOfRange 0 0)
  end.
Proof.
  unfold getPort, first_port.
  destruct (corev1.Ports (corev1.Spec svc)) as [|p ps]; reflexivity.
Qed.

Lemma RegisterExtension_service_eq (svc : corev1.Service) (fr : Frame) :
  RegisterExtension_service svc fr =
  match declared_path svc with
  | None => Returned fr tt
  | Some url =>
      match first_port svc with
      | Some p =>
          Returned
            {| outer := outer (debug_url url fr);
               ws := restful.Route_ (ws fr)
                       (restful.To (restful.POST (ws fr) url)
                          (ExtensionHandler (extension_of svc url p))) |} tt
      | None => Panicked (debug_url url fr) (IndexOutOfRange 0 0)
      end
  end.
Proof.
  unfold RegisterExtension_service, range_map, declared_path.
  set (f := λ url : string,
    (log_Frame logging.DebugLevel ("extension URL: " +:+ url) ;;
     port ← getPort svc;
     ws_Route (λ w, restful.To (restful.POST w url)
                 (ExtensionHandler
                    {| Name := metav1.Name (corev1.ObjectMeta svc);
                       URL := url; Port := port |}))) : M Frame unit).
  etrans.
  { exact (range_permutation_urlKey f _ _ fr (reflexivity _)). }
  destruct (metav1.Annotations (corev1.ObjectMeta svc) !! urlKey) as [url|];
    [|done].
  unfold f. rewrite bind_run. simpl. rewrite bind_run, getPort_first_port.
  by destruct (first_port svc).
Qed.

(** The loop over the annotations of a service does the same in every
    order in which Go may visit them. *)
Lemma RegisterExtension_service_any_order (svc : corev1.Service)
    (l : list (string * string)) (fr : Frame) :
  l ≡ₚ map_to_list (metav1.Annotations (corev1.ObjectMeta svc)) →
  range l (λ kv, RegisterExtension_annotation svc kv.1 kv.2) fr =
  RegisterExtension_service svc fr.
Proof.
  intros Hl. unfold RegisterExtension_service, range_map.
  set (f := λ url : string, RegisterExtension_annotation svc urlKey url).
  etrans; [|symmetry].
  - exact (range_permutation_urlKey f _ l fr Hl).
  - exact (range_permutation_urlKey f _ _ fr (reflexivity _)).
Qed.

(** ** The outer loop *)

Lemma after_services_nil (fr : Frame) : after_services [] fr = fr.
Proof.
  destruct fr as [[c l] [rp cs ps rs]]. unfold after_services. simpl.
  by rewrite !app_nil_r.
Qed.

Lemma passable_service_eq (svc : corev1.Service) (fr : Frame) :
  passable svc → json_defaults (ws fr) →
  RegisterExtension_service svc fr = Returned (after_services [svc] fr) tt.
Proof.
  intros Hp [Hc Hpr]. rewrite RegisterExtension_service_eq.
  unfold after_services, service_route. simpl.
  destruct (declared_path svc) as [url|] eqn:Hd; simpl.
  - destruct Hp as [?|[p Hp]]; [congruence|]. rewrite Hp. simpl.
    unfold restful.Route_, restful.Build, extension_route. simpl.
    by rewrite Hc, Hpr.
  - rewrite <- (after_services_nil fr) at 1. reflexivity.
Qed.

Lemma after_services_cons (svc : corev1.Service)
    (svcs : list corev1.Service) (fr : Frame) :
  after_services svcs (after_services [svc] fr) =
  after_services (svc :: svcs) fr.
Proof.
  unfold after_services. simpl.
  destruct (declared_path svc), (service_route svc); simpl;
    by rewrite <- ?app_assoc, ?app_nil_r.
Qed.

(** When every service is passable the loop returns. *)
Lemma services_loop_returns (svcs : list corev1.Service) (fr : Frame) :
  Forall passable svcs → json_defaults (ws fr) →
  range svcs RegisterExtension_service fr =
  Returned (after_services svcs fr) tt.
Proof.
  intros Hall. revert fr.
  induction Hall as [|svc svcs Hp Hall IH]; intros fr Hj.
  - by rewrite after_services_nil.
  - simpl. rewrite bind_run, passable_service_eq by done.
    rewrite IH by done. by rewrite after_services_cons.
Qed.

(** A service with the annotation and no port stops the loop with Go's
    index-out-of-range panic, after its debug entry was written. *)
Lemma services_loop_panics (pre post : list corev1.Service)
    (bad : corev1.Service) (url : string) (fr : Frame) :
  Forall passable pre → json_defaults (ws fr) →
  declared_path bad = Some url → first_port bad = None →
  range (pre ++ bad :: post) RegisterExtension_service fr =
  Panicked (debug_url url (after_services pre fr)) (IndexOutOfRange 0 0).
Proof.
  intros Hpre Hj Hd Hp.
  rewrite range_app, bind_run, services_loop_returns by done.
  simpl. rewrite bind_run, RegisterExtension_service_eq, Hd, Hp. done.
Qed.

(** Every list of services is all passable, or splits at its first
    service that is not. *)
Lemma first_not_passable (svcs : list corev1.Service) :
  Forall passable svcs ∨
  ∃ pre bad post url,
    svcs = pre ++ bad :: post ∧ Forall passable pre ∧
    declared_path bad = Some url ∧ first_port bad = None.
Proof.
  induction svcs as [|svc svcs IH]; [by left|].
  destruct (decide (passable svc)) as [Hp|Hn].
  - destruct IH as [Hall|(pre & bad & post & url & -> & Hpre & Hd & Hf)].
    + left. by constructor.
    + right. exists (svc :: pre), bad, post, url.
      split_and!; [done|by constructor|done|done].
  - right. unfold passable in Hn.
    destruct (declared_path svc) as [url|] eqn:Hd; [|exfalso; apply Hn; by left].
    destruct (first_port svc) as [p|] eqn:Hf;
      [exfalso; apply Hn; right; by eexists|].
    by exists [], svc, svcs, url.
Qed.

(** ** The whole discovery pass *)

Lemma RegisterExtension_list_error (r : Resource) (namespace : string)
    (st : State) (err : k8sclientset.error) :
  list_answer r namespace = inr err →
  RegisterExtension r namespace st =
  Returned {| container := container st;
              Log := Log st ++ [info_entry "Adding API for extensions";
                                error_entry ("no extension found: " +:+ err)] |}
           tt.
Proof.
  unfold list_answer, RegisterExtension. intros ->.
  rewrite bind_run. run_ops.
  by rewrite <- app_assoc.
Qed.

Lemma RegisterExtension_returns (r : Resource) (namespace : string)
    (st : State) (svcs : list corev1.Service) :
  list_answer r namespace = inl {| corev1.Items := svcs |} →
  Forall passable svcs →
  RegisterExtension r namespace st =
  Returned
    {| container := restful.Add (container st) (extension_WebService svcs);
       Log := Log st ++ info_entry "Adding API for extensions"
                     :: (debug_entry <$> omap declared_path svcs) |}
    tt.
Proof.
  unfold list_answer, RegisterExtension. intros -> Hall.
  rewrite bind_run. simpl. rewrite bind_run. unfold with_ws.
  rewrite services_loop_returns by done. simpl.
  run_ops. by rewrite <- app_assoc.
Qed.

Lemma RegisterExtension_panics (r : Resource) (namespace : string)
    (st : State) (pre post : list corev1.Service) (bad : corev1.Service)
    (url : string) :
  list_answer r namespace = inl {| corev1.Items := pre ++ bad :: post |} →
  Forall passable pre →
  declared_path bad = Some url → first_port bad = None →
  RegisterExtension r namespace st =
  Panicked
    {| container := container st;
       Log := Log st ++ info_entry "Adding API for extensions"
                     :: (debug_entry <$> omap declared_path pre)
                     ++ [debug_entry url] |}
    (IndexOutOfRange 0 0).
Proof.
  unfold list_answer, RegisterExtension. intros -> Hpre Hd Hf.
  rewrite bind_run. simpl. rewrite bind_run. unfold with_ws.
  rewrite (services_loop_panics pre post bad url) by done.
  run_ops. unfold logging.write. by rewrite <- !app_assoc.
Qed.

(** The pass returns exactly when every service is passable. *)
Lemma RegisterExtension_returns_iff (r : Resource) (namespace : string)
    (st : State) (svcs : list corev1.Service) :
  list_answer r namespace = inl {| corev1.Items := svcs |} →
  returns (RegisterExtension r namespace st) ↔ Forall passable svcs.
Proof.
  intros Hl. split.
  - intros Hret.
    destruct (first_not_passable svcs)
      as [Hall|(pre & bad & post & url & -> & Hpre & Hd & Hf)]; [done|].
    by rewrite (RegisterExtension_panics _ _ _ _ _ _ _ Hl Hpre Hd Hf) in Hret.
  - intros Hall. by rewrite (RegisterExtension_returns _ _ _ _ Hl Hall).
Qed.

Lemma RegisterExtension_final_container (r : Resource) (namespace : string)
    (st : State) :
  ¬ returns (RegisterExtension r namespace st) →
  container (final (RegisterExtension r namespace st)) = container st.
Proof.
  intros Hn. destruct (list_answer r namespace) as [[svcs]|err] eqn:Hl.
  - destruct (first_not_passable svcs)
      as [Hall|(pre & bad & post & url & -> & Hpre & Hd & Hf)].
    + by rewrite (RegisterExtension_returns _ _ _ _ Hl Hall) in Hn.
    + by rewrite (RegisterExtension_panics _ _ _ _ _ _ _ Hl Hpre Hd Hf).
  - by rewrite (RegisterExtension_list_error _ _ _ _ Hl).
Qed.

(** Leaving out a service without the annotation does not change the
    loop. *)
Lemma services_loop_skip (pre post : list corev1.Service)
    (svc : corev1.Service) (fr : Frame) :
  declared_path svc = None →
  range (pre ++ svc :: post) RegisterExtension_service fr =
  range (pre ++ post) RegisterExtension_service fr.
Proof.
  intros Hd. rewrite !range_app, !bind_run.
  destruct (range pre RegisterExtension_service fr) as [fr' a|fr' p]; [|done].
  simpl. by rewrite bind_run, RegisterExtension_service_eq, Hd.
Qed.

(** ** The primary routes *)

Lemma RegisterEndpoints_eq (r : Resource) (st : State) :
  RegisterEndpoints r st =
  Returned
    {| container := restful.Add (container st) primary_WebService;
       Log := Log st ++ [info_entry "Adding v1, and API for pipelines"] |}
    tt.
Proof. reflexivity. Qed.

(** ** The fixtures at work *)

Lemma fakeResource_answer (svcs : list corev1.Service) (namespace : string) :
  list_answer (fakeResource (inl svcs)) namespace =
  inl {| corev1.Items := svcs |}.
Proof. reflexivity. Qed.

(** The end-to-end scenario of the specification: [foo] gets its route,
    [bar] gets none. *)
Example scenario_foo_bar :
  RegisterExtension (fakeResource (inl [foo; bar])) "default" emptyState =
  Returned
    {| container :=
         {| restful.webServices :=
              [ {| restful.rootPath := "/";
                   restful.consumes := ["application/json"];
                   restful.produces := ["application/json"];
                   restful.routes :=
                     [ {| restful.Method := "POST";
                          restful.Path := "/foo-ext";
                          restful.Consumes := ["application/json"];
                          restful.Produces := ["application/json"];
                          restful.Function :=
                            Some (ExtensionHandler
                                    {| Name := "foo"; URL := "/foo-ext";
                                       Port := "8080" |}) |} ] |} ] |};
       Log := [ info_entry "Adding API for extensions";
                debug_entry "/foo-ext" ] |}
    tt.
Proof. vm_compute. reflexivity. Qed.

Example scenario_foo_target :
  target_string {| Name := "foo"; URL := "/foo-ext"; Port := "8080" |} =
  "http://foo:8080/".
Proof. reflexivity. Qed.

(** ** Properties of the discovery pass *)

Lemma loop_routes_prefix (svcs : list corev1.Service) (fr : Frame) :
  json_defaults (ws fr) →
  ∃ pre, pre `prefix_of` svcs ∧
    restful.routes
      (ws (final (range svcs RegisterExtension_service fr))) =
    restful.routes (ws fr) ++ omap service_route pre.
Proof.
  intros Hj.
  destruct (first_not_passable svcs)
    as [Hall|(pre & bad & post & url & -> & Hpre & Hd & Hf)].
  - exists svcs. split; [done|]. by rewrite services_loop_returns.
  - exists pre. split; [by apply prefix_app_r|].
    by rewrite (services_loop_panics pre post bad url).
Qed.

Lemma service_route_extension (svc : corev1.Service) (r : Route)
    (ext : Extension) :
  service_route svc = Some r →
  restful.Function r = Some (ExtensionHandler ext) →
  ∃ p, declared_path svc = Some (URL ext) ∧ first_port svc = Some p ∧
       ext = extension_of svc (URL ext) p.
Proof.
  unfold service_route. intros Hr Hf.
  destruct (declared_path svc) as [url|]; [|done].
  destruct (first_port svc) as [p|]; [|done].
  simpl in Hr. injection Hr as <-. simpl in Hf. injection Hf as <-.
  by exists p.
Qed.

Lemma discovered_origin (svcs : list corev1.Service) (st : State)
    (ext : Extension) :
  ext ∈ discovered svcs st →
  ∃ svc p, svc ∈ svcs ∧ declared_path svc = Some (URL ext) ∧
           first_port svc = Some p ∧ ext = extension_of svc (URL ext) p.
Proof.
  unfold discovered, extensions_of. intros Hext.
  destruct (loop_routes_prefix svcs {| outer := st; ws := json_WebService "/" |})
    as (pre & Hpre & Hroutes); [done|].
  rewrite Hroutes in Hext. simpl in Hext.
  apply list_elem_of_omap in Hext as (r & Hr & Hf).
  apply list_elem_of_omap in Hr as (svc & Hsvc & Hr).
  destruct (restful.Function r) as [[m|ext']|] eqn:Hfun; [done| |done].
  injection Hf as ->.
  destruct (service_route_extension svc r ext Hr Hfun) as (p & Hd & Hp & He).
  exists svc, p. split_and!; [|done..].
  destruct Hpre as [post ->]. apply elem_of_app. by left.
Qed.

Lemma positive_port_Itoa (p : Z) : positive_port (strconv.Itoa p) ↔ 0 < p.
Proof.
  unfold positive_port, strconv.Itoa. split.
  - intros (n & Hn & Heq). by apply (inj pretty) in Heq as ->.
  - intros Hp. by exists p.
Qed.

Lemma service_route_Some (svc : corev1.Service) (url : string) (p : Z) :
  declared_path svc = Some url → first_port svc = Some p →
  service_route svc = Some (extension_route (extension_of svc url p)).
Proof. unfold service_route. by intros -> ->. Qed.

Lemma service_route_None (svc : corev1.Service) :
  declared_path svc = None → service_route svc = None.
Proof. unfold service_route. by intros ->. Qed.

Lemma routes_at_extension_WebService (u : string)
    (svcs : list corev1.Service) :
  Forall passable svcs →
  routes_at u (extension_WebService svcs) =
  omap service_route (filter (λ svc, declared_path svc = Some u) svcs).
Proof.
  unfold routes_at. simpl. induction 1 as [|svc svcs Hp Hall IH]; [done|].
  rewrite filter_cons.
  destruct (declared_path svc) as [url|] eqn:Hd.
  - destruct Hp as [?|[p Hp]]; [congruence|].
    pose proof (service_route_Some svc url p Hd Hp) as Hr.
    csimpl. rewrite Hr. rewrite filter_cons. simpl.
    destruct (decide (url = u)) as [->|Hne].
    + rewrite decide_True by done. csimpl. by rewrite Hr, IH.
    + rewrite decide_False by congruence. done.
  - rewrite decide_False by done. csimpl.
    by rewrite (service_route_None svc Hd).
Qed.

Lemma omap_total_last {A B} (f : A → option B) (l : list A) :
  Forall (λ x, is_Some (f x)) l →
  length (omap f l) = length l ∧ last (omap f l) = last l ≫= f.
Proof.
  induction 1 as [|x l [y Hy] Hall [IHlen IHlast]]; [done|].
  csimpl. rewrite Hy. simpl. split; [by rewrite IHlen|].
  destruct l as [|x' l']; [by csimpl; rewrite Hy|].
  rewrite last_cons_cons, <- IHlast. csimpl.
  inversion Hall as [|? ? [y' Hy'] ?]; subst. rewrite Hy'. simpl.
  by destruct (omap f l').
Qed.

Lemma two_declaring (svcs : list corev1.Service) (u : string) (i j : nat)
    (sa sb : corev1.Service) :
  (i < j)%nat → svcs !! i = Some sa → svcs !! j = Some sb →
  declared_path sa = Some u → declared_path sb = Some u →
  (2 ≤ length (filter (λ svc, declared_path svc = Some u) svcs))%nat.
Proof.
  intros Hij Hi Hj Ha Hb.
  rewrite <- (take_drop_middle svcs i sa Hi), filter_app, filter_cons.
  rewrite decide_True by done. rewrite length_app. simpl.
  assert (sb ∈ filter (λ svc, declared_path svc = Some u) (drop (S i) svcs))
    as Hin.
  { apply list_elem_of_filter. split; [done|].
    apply list_elem_of_lookup. exists (j - S i)%nat.
    rewrite lookup_drop. by replace (S i + (j - S i))%nat with j by lia. }
  destruct (filter _ (drop (S i) svcs)) as [|? ?]; [by inversion Hin|].
  simpl. lia.
Qed.

(** A successful query with no service at all still adds the web service
    rooted at [/], with no route. *)
Lemma RegisterExtension_no_services (r : Resource) (namespace : string)
    (st : State) :
  list_answer r namespace = inl {| corev1.Items := [] |} →
  RegisterExtension r namespace st =
  Returned
    {| container := restful.Add (container st) (json_WebService "/");
       Log := Log st ++ [info_entry "Adding API for extensions"] |}
    tt.
Proof.
  intros Hl. by rewrite (RegisterExtension_returns _ _ _ [] Hl).
Qed.

(** Any service with the annotation and no port makes the whole pass
    panic, and the container stays as it was. *)
Lemma RegisterExtension_not_passable (r : Resource) (namespace : string)
    (st : State) (svcs : list corev1.Service) (svc : corev1.Service) :
  list_answer r namespace = inl {| corev1.Items := svcs |} →
  svc ∈ svcs → is_Some (declared_path svc) → first_port svc = None →
  ¬ returns (RegisterExtension r namespace st) ∧
  container (final (RegisterExtension r namespace st)) = container st.
Proof.
  intros Hl Hin [url Hd] Hf.
  assert (¬ returns (RegisterExtension r namespace st)) as Hn.
  { rewrite (RegisterExtension_returns_iff _ _ _ _ Hl), Forall_forall.
    intros Hall. destruct (Hall svc Hin) as [?|[p ?]]; congruence. }
  split; [done|]. by apply RegisterExtension_final_container.
Qed.

(** The target of the handler bound to a discovered extension is built from
    the name of its service and the number of its first port. *)
Lemma discovered_target_string (svcs : list corev1.Service) (st : State)
    (ext : Extension) :
  ext ∈ discovered svcs st →
  ∃ svc p, svc ∈ svcs ∧ first_port svc = Some p ∧
    target_string ext =
    "http://" +:+ metav1.Name (corev1.ObjectMeta svc) +:+ ":" +:+
      strconv.Itoa p +:+ "/".
Proof.
  intros Hext.
  destruct (discovered_origin svcs st ext Hext)
    as (svc & p & Hin & Hd & Hp & ->).
  by exists svc, p.
Qed.

(** ** The claims *)

(** C1.  A service with the endpoint annotation and an empty port list is
    not skipped: [getPort] indexes the empty list, and the discovery pass
    over [portless] alone ends in Go's index-out-of-range panic before any
    web service reaches the container. *)
Theorem empty_port_list_panics :
  getPort portless emptyState = Panicked emptyState (IndexOutOfRange 0 0) ∧
  RegisterExtension (fakeResource (inl [portless])) "default" emptyState =
  Panicked
    {| container := {| restful.webServices := [] |};
       Log := [ info_entry "Adding API for extensions";
                debug_entry "/portless" ] |}
    (IndexOutOfRange 0 0).
Proof. split; vm_compute; reflexivity. Qed.

(** C2, as the specification states it, fails: after a completed pass
    over [first] and [second], which declare the same path, it is not the
    case that exactly one route is registered for that path. *)
Lemma shared_path_counterexample :
  ¬ single_route_last_wins (fakeResource (inl [first; second])) "default"
      emptyState [first; second] "/shared".
Proof.
  intros Hu.
  destruct (Hu (fakeResource_answer _ _) _
              (RegisterExtension_returns _ "default" emptyState
                 [first; second] (fakeResource_answer _ _)
                 ltac:(compute_done)))
    as (w & route & Hw & Hroute & _).
  vm_compute in Hw. injection Hw as <-.
  vm_compute in Hroute. discriminate.
Qed.

(** C2, amended.  When two services of one pass declare the same path and
    the pass completes, the web service it adds holds one route for that
    path per declaring service, in processing order (so at least two), and
    the last of them is bound to the extension of the declaring service
    that was processed last. *)
Theorem shared_path_routes (r : Resource) (namespace : string)
    (st st' : State) (svcs : list corev1.Service) (u : string) (i j : nat)
    (sa sb : corev1.Service) :
  list_answer r namespace = inl {| corev1.Items := svcs |} →
  (i < j)%nat → svcs !! i = Some sa → svcs !! j = Some sb →
  declared_path sa = Some u → declared_path sb = Some u →
  RegisterExtension r namespace st = Returned st' tt →
  ∃ w,
    restful.webServices (container st') =
      restful.webServices (container st) ++ [w] ∧
    routes_at u w =
      omap service_route (filter (λ svc, declared_path svc = Some u) svcs) ∧
    length (routes_at u w) =
      length (filter (λ svc, declared_path svc = Some u) svcs) ∧
    (2 ≤ length (routes_at u w))%nat ∧
    last (routes_at u w) =
      last (filter (λ svc, declared_path svc = Some u) svcs) ≫= service_route.
Proof.
  intros Hl Hij Hi Hj Ha Hb Hrun.
  assert (Forall passable svcs) as Hall.
  { apply (RegisterExtension_returns_iff r namespace st svcs Hl).
    by rewrite Hrun. }
  rewrite (RegisterExtension_returns _ _ _ _ Hl Hall) in Hrun.
  injection Hrun as <-. exists (extension_WebService svcs).
  rewrite routes_at_extension_WebService by done.
  assert (Forall (λ svc, is_Some (service_route svc))
            (filter (λ svc, declared_path svc = Some u) svcs)) as Htotal.
  { apply Forall_forall. intros svc [Hd Hin]%list_elem_of_filter.
    rewrite Forall_forall in Hall. destruct (Hall svc Hin) as [?|[p Hp]];
      [congruence|].
    rewrite (service_route_Some svc u p Hd Hp). by eexists. }
  destruct (omap_total_last service_route _ Htotal) as [Hlen Hlast].
  split_and!; [done|done|done| |done].
  rewrite Hlen. by eapply two_declaring.
Qed.

(** The amended C2 at the pass over [first] and [second]. *)
Lemma shared_path_routes_witness :
  list_answer (fakeResource (inl [first; second])) "default" =
    inl {| corev1.Items := [first; second] |} ∧
  (0 < 1)%nat ∧ [first; second] !! 0%nat = Some first ∧
  [first; second] !! 1%nat = Some second ∧
  declared_path first = Some "/shared" ∧
  declared_path second = Some "/shared" ∧
  RegisterExtension (fakeResource (inl [first; second])) "default"
      emptyState =
    Returned (final (RegisterExtension (fakeResource (inl [first; second]))
                       "default" emptyState)) tt ∧
  ∃ w,
    restful.webServices
      (container (final (RegisterExtension
                           (fakeResource (inl [first; second]))
                           "default" emptyState))) =
      restful.webServices (container emptyState) ++ [w] ∧
    routes_at "/shared" w =
      omap service_route
        (filter (λ svc, declared_path svc = Some "/shared") [first; second]) ∧
    length (routes_at "/shared" w) =
      length (filter (λ svc, declared_path svc = Some "/shared")
                [first; second]) ∧
    (2 ≤ length (routes_at "/shared" w))%nat ∧
    last (routes_at "/shared" w) =
      last (filter (λ svc, declared_path svc = Some "/shared")
              [first; second]) ≫= service_route.
Proof.
  split_and!; [reflexivity|lia|reflexivity..|].
  apply (shared_path_routes (fakeResource (inl [first; second])) "default"
           emptyState _ [first; second] "/shared" 0 1 first second);
    [reflexivity|lia|reflexivity..].
Defined.

(** C3.  [foo] has the endpoint annotation and two ports, so it stands for
    the POST route [/foo-ext] bound to [foo:8080]; yet in a pass that also
    lists [portless] the panic of [getPort] ends [RegisterExtension] before
    [container.Add], and no route is registered for [foo]. *)
Theorem sibling_panic_drops_route :
  service_route foo =
    Some (extension_route
            {| Name := "foo"; URL := "/foo-ext"; Port := "8080" |}) ∧
  RegisterExtension (fakeResource (inl [foo; portless])) "default"
      emptyState =
  Panicked
    {| container := {| restful.webServices := [] |};
       Log := [ info_entry "Adding API for extensions";
                debug_entry "/foo-ext";
                debug_entry "/portless" ] |}
    (IndexOutOfRange 0 0).
Proof. split; vm_compute; reflexivity. Qed.

(** C5.  When the list query fails, [RegisterExtension] writes the error to
    the log and returns normally with the container untouched, so no
    extension route is registered; and whichever of [RegisterEndpoints] and
    the failed [RegisterExtension] runs first, both return and the
    container ends up holding the web service of the primary routes. *)
Theorem discovery_failure_keeps_primary_routes (r : Resource)
    (namespace : string) (st : State) (err : k8sclientset.error) :
  list_answer r namespace = inr err →
  RegisterExtension r namespace st =
    Returned
      {| container := container st;
         Log := Log st ++
                [ info_entry "Adding API for extensions";
                  error_entry ("no extension found: " +:+ err) ] |}
      tt ∧
  (∃ st', (RegisterEndpoints r ;; RegisterExtension r namespace) st =
            Returned st' tt ∧
          container st' = restful.Add (container st) primary_WebService) ∧
  (∃ st', (RegisterExtension r namespace ;; RegisterEndpoints r) st =
            Returned st' tt ∧
          container st' = restful.Add (container st) primary_WebService).
Proof.
  intros Hl. split_and!.
  - by apply RegisterExtension_list_error.
  - rewrite bind_run, RegisterEndpoints_eq.
    rewrite (RegisterExtension_list_error _ _ _ _ Hl). by eexists.
  - rewrite bind_run, (RegisterExtension_list_error _ _ _ _ Hl).
    rewrite RegisterEndpoints_eq. by eexists.
Qed.

(** C5 at a client whose list query answers "connection refused". *)
Lemma discovery_failure_keeps_primary_routes_witness :
  list_answer (fakeResource (inr "connection refused")) "default" =
    inr "connection refused" ∧
  RegisterExtension (fakeResource (inr "connection refused")) "default"
      emptyState =
    Returned
      {| container := container emptyState;
         Log := Log emptyState ++
                [ info_entry "Adding API for extensions";
                  error_entry
                    ("no extension found: " +:+ "connection refused") ] |}
      tt ∧
  (∃ st', (RegisterEndpoints (fakeResource (inr "connection refused")) ;;
           RegisterExtension (fakeResource (inr "connection refused"))
             "default") emptyState = Returned st' tt ∧
          container st' =
            restful.Add (container emptyState) primary_WebService) ∧
  (∃ st', (RegisterExtension (fakeResource (inr "connection refused"))
             "default" ;;
           RegisterEndpoints (fakeResource (inr "connection refused")))
            emptyState = Returned st' tt ∧
          container st' =
            restful.Add (container emptyState) primary_WebService).
Proof.
  split; [reflexivity|].
  apply (discovery_failure_keeps_primary_routes
           (fakeResource (inr "connection refused")) "default" emptyState
           "connection refused").
  reflexivity.
Defined.

(** C6.  A service without the endpoint annotation is passed over: the loop
    body leaves the web service and the log as they are and returns, and a
    discovery pass over a list that holds the service behaves exactly as the
    pass over the list without it. *)
Theorem unannotated_service_skipped (svc : corev1.Service) :
  declared_path svc = None →
  (∀ fr, RegisterExtension_service svc fr = Returned fr tt) ∧
  (∀ r r' namespace st pre post,
     list_answer r namespace = inl {| corev1.Items := pre ++ svc :: post |} →
     list_answer r' namespace = inl {| corev1.Items := pre ++ post |} →
     RegisterExtension r namespace st = RegisterExtension r' namespace st).
Proof.
  intros Hd. split.
  - intros fr. by rewrite RegisterExtension_service_eq, Hd.
  - intros r r' namespace st pre post Hl Hl'.
    unfold list_answer in Hl, Hl'. unfold RegisterExtension.
    rewrite Hl, Hl'. rewrite !bind_run. simpl. rewrite !bind_run.
    unfold with_ws. simpl. by rewrite services_loop_skip.
Qed.

(** C6 at the service [bar]. *)
Lemma unannotated_service_skipped_witness :
  declared_path bar = None ∧
  (∀ fr, RegisterExtension_service bar fr = Returned fr tt) ∧
  (∀ r r' namespace st pre post,
     list_answer r namespace = inl {| corev1.Items := pre ++ bar :: post |} →
     list_answer r' namespace = inl {| corev1.Items := pre ++ post |} →
     RegisterExtension r namespace st = RegisterExtension r' namespace st).
Proof.
  split; [reflexivity|].
  apply (unannotated_service_skipped bar). reflexivity.
Defined.

(** C7.  When the target string parses and the transport answers the
    outbound request with an error (the upstream host is not resolved or
    refuses the connection), [HandleExtension] returns normally and the
    response, untouched until then, carries the status 502 and not the
    status 500, with header and body as they were; the transport was given
    the outbound request exactly once, and the error went to the proxy's
    log.  This holds for every way the proxy makes the outbound request and
    copies responses. *)
Theorem unreachable_upstream_bad_gateway {URL Request Response : Type}
    (url_Parse : string → URL + string)
    (outbound : URL → Request → Request)
    (RoundTrip : Request → Response + string)
    (copyResponse : Response → http.ResponseWriter → http.ResponseWriter)
    (ext : Extension) (request : Request)
    (ex : httputil.Exchange Request) (u : URL) (err : string) :
  url_Parse (target_string ext) = inl u →
  RoundTrip (outbound u request) = inr err →
  http.statusCode (httputil.writer ex) = None →
  ∃ ex',
    HandleExtension url_Parse
      (httputil.ServeHTTP outbound RoundTrip copyResponse)
      ext request ex = Returned ex' tt ∧
    http.statusCode (httputil.writer ex') = Some http.StatusBadGateway ∧
    http.statusCode (httputil.writer ex') ≠
      Some http.StatusInternalServerError ∧
    http.header (httputil.writer ex') = http.header (httputil.writer ex) ∧
    http.body (httputil.writer ex') = http.body (httputil.writer ex) ∧
    httputil.roundTrips ex' =
      httputil.roundTrips ex ++ [outbound u request] ∧
    httputil.errorLog ex' =
      httputil.errorLog ex ++ ["http: proxy error: " +:+ err].
Proof.
  intros Hparse Htrip Hfresh.
  unfold HandleExtension, parsed_target. rewrite Hparse. simpl.
  unfold modify, httputil.ServeHTTP. rewrite Htrip.
  eexists. split; [reflexivity|].
  unfold httputil.defaultErrorHandler, http.WriteHeader. simpl.
  rewrite Hfresh. simpl. split_and!; done.
Qed.

(** C7 at the extension of [foo], a fresh response and a transport that
    refuses every connection. *)
Lemma unreachable_upstream_bad_gateway_witness :
  (inl : string → string + string)
    (target_string {| Name := "foo"; URL := "/foo-ext"; Port := "8080" |}) =
    inl "http://foo:8080/" ∧
  refusingTransport ("http://foo:8080/" +:+ "foo-ext") =
    inr "dial tcp: connection refused" ∧
  http.statusCode (httputil.writer (@freshExchange string)) = None ∧
  ∃ ex',
    HandleExtension inl
      (httputil.ServeHTTP (λ u req : string, u +:+ req) refusingTransport
         (λ _ rw, rw))
      {| Name := "foo"; URL := "/foo-ext"; Port := "8080" |} "foo-ext"
      freshExchange = Returned ex' tt ∧
    http.statusCode (httputil.writer ex') = Some http.StatusBadGateway ∧
    http.statusCode (httputil.writer ex') ≠
      Some http.StatusInternalServerError ∧
    http.header (httputil.writer ex') =
      http.header (httputil.writer (@freshExchange string)) ∧
    http.body (httputil.writer ex') =
      http.body (httputil.writer (@freshExchange string)) ∧
    httputil.roundTrips ex' =
      httputil.roundTrips freshExchange ++
        ["http://foo:8080/" +:+ "foo-ext"] ∧
    httputil.errorLog ex' =
      httputil.errorLog (@freshExchange string) ++
        ["http: proxy error: " +:+ "dial tcp: connection refused"].
Proof.
  split_and!; [reflexivity..|].
  apply (unreachable_upstream_bad_gateway
           (inl : string → string + string)
           (λ u req : string, u +:+ req) refusingTransport (λ _ rw, rw)
           {| Name := "foo"; URL := "/foo-ext"; Port := "8080" |} "foo-ext"
           freshExchange "http://foo:8080/" "dial tcp: connection refused");
    reflexivity.
Defined.

(** C8, as the specification states it, fails: the pass over [zero], whose
    first port number is 0, builds an extension whose port is not a
    positive integer. *)
Lemma zero_port_counterexample : ¬ first_port_positive [zero] emptyState.
Proof.
  intros Hpos.
  destruct (Hpos {| Name := "zero"; URL := "/zero"; Port := "0" |})
    as (_ & _ & _ & _ & _ & n & Hn & Heq).
  - vm_compute. apply list_elem_of_here.
  - simpl in Heq. change "0" with (strconv.Itoa 0) in Heq.
    apply (inj pretty) in Heq. lia.
Qed.

(** C8, amended.  Every extension built during a discovery pass, completed
    or not, comes from a listed service with the endpoint annotation and a
    first port; its name is the service's name and its port is the decimal
    rendering of the number of that first port, which is a positive integer
    exactly when that number is positive. *)
Theorem extension_port_is_first_port (svcs : list corev1.Service)
    (st : State) (ext : Extension) :
  ext ∈ discovered svcs st →
  ∃ svc port,
    svc ∈ svcs ∧
    declared_path svc = Some (URL ext) ∧
    corev1.Ports (corev1.Spec svc) !! 0%nat = Some port ∧
    Name ext = metav1.Name (corev1.ObjectMeta svc) ∧
    Port ext = strconv.Itoa (corev1.Port port) ∧
    (positive_port (Port ext) ↔ 0 < corev1.Port port).
Proof.
  intros Hext.
  destruct (discovered_origin svcs st ext Hext) as (svc & p & Hin & Hd & Hp & He).
  unfold first_port in Hp.
  destruct (corev1.Ports (corev1.Spec svc) !! 0%nat) as [port|] eqn:Hport;
    [|done].
  injection Hp as <-. exists svc, port. rewrite He. simpl.
  split_and!; [done..|]. apply positive_port_Itoa.
Qed.

(** The amended C8 at the extension built from [foo] in a pass that
    panics afterwards, on [portless]. *)
Lemma extension_port_is_first_port_witness :
  {| Name := "foo"; URL := "/foo-ext"; Port := "8080" |}
    ∈ discovered [foo; portless] emptyState ∧
  ∃ svc port,
    svc ∈ [foo; portless] ∧
    declared_path svc = Some "/foo-ext" ∧
    corev1.Ports (corev1.Spec svc) !! 0%nat = Some port ∧
    "foo" = metav1.Name (corev1.ObjectMeta svc) ∧
    "8080" = strconv.Itoa (corev1.Port port) ∧
    (positive_port "8080" ↔ 0 < corev1.Port port).
Proof.
  assert ({| Name := "foo"; URL := "/foo-ext"; Port := "8080" |}
            ∈ discovered [foo; portless] emptyState) as Hin.
  { vm_compute. apply list_elem_of_here. }
  split; [exact Hin|].
  exact (extension_port_is_first_port [foo; portless] emptyState _ Hin).
Defined.

(** C9.  [HandleExtension] parses the concatenation
    ["http://" + Name + ":" + Port + "/"] and drops the error: whatever the
    error is, a failed parse leaves a nil target and the handler ends in a
    nil pointer dereference with nothing written to the response; the
    handler returns, having served the request through the proxy for the
    parsed target, exactly when the concatenation parses. *)
Theorem nil_target_iff_unparseable {URL Request ResponseWriter : Type}
    (url_Parse : string → URL + string)
    (proxy_ServeHTTP : URL → ResponseWriter → Request → ResponseWriter)
    (ext : Extension) (request : Request) (response : ResponseWriter) :
  target_string ext = "http://" +:+ Name ext +:+ ":" +:+ Port ext +:+ "/" ∧
  ((∃ err, url_Parse (target_string ext) = inr err) ↔
   HandleExtension url_Parse proxy_ServeHTTP ext request response =
     Panicked response NilPointerDereference) ∧
  ((∃ u, url_Parse (target_string ext) = inl u) ↔
   returns (HandleExtension url_Parse proxy_ServeHTTP ext request response)) ∧
  (∀ u, url_Parse (target_string ext) = inl u →
     HandleExtension url_Parse proxy_ServeHTTP ext request response =
       Returned (proxy_ServeHTTP u response request) tt).
Proof.
  unfold HandleExtension, parsed_target.
  destruct (url_Parse (target_string ext)) as [u|err]; simpl.
  - split_and!; [done| |split; [done|by eexists]|by intros ? [= <-]].
    split; [by intros [? ?]|done].
  - split_and!; [done|split; [done|by eexists]| |done].
    split; [by intros [? ?]|done].
Qed.

(** C10.  The list query for [portless] succeeds, yet the pass panics
    before [container.Add]: the container is left as it was, and no web
    service rooted at [/] is added to it. *)
Theorem successful_query_adds_nothing :
  list_answer (fakeResource (inl [portless])) "default" =
    inl {| corev1.Items := [portless] |} ∧
  ¬ returns (RegisterExtension (fakeResource (inl [portless])) "default"
               {| container := restful.Add (container emptyState)
                                 primary_WebService;
                  Log := [] |}) ∧
  restful.webServices
    (container
       (final (RegisterExtension (fakeResource (inl [portless])) "default"
                 {| container := restful.Add (container emptyState)
                                   primary_WebService;
                    Log := [] |}))) =
  [primary_WebService].
Proof. split_and!; [reflexivity|by vm_compute|vm_compute; reflexivity]. Qed.

(** ** Further properties of the package *)

Lemma passable_ports (svc : corev1.Service) :
  passable svc ↔
  (is_Some (metav1.Annotations (corev1.ObjectMeta svc) !! urlKey) →
   corev1.Ports (corev1.Spec svc) ≠ []).
Proof.
  unfold passable, declared_path, first_port.
  destruct (metav1.Annotations (corev1.ObjectMeta svc) !! urlKey) as [url|];
    destruct (corev1.Ports (corev1.Spec svc)) as [|p ps]; simpl.
  - split; [intros [?|[? ?]]; done|]. intros H. by destruct H.
  - split; [done|]. intros _. right. by eexists.
  - split; [by intros _ [? ?]|]. by left.
  - split; [done|]. by left.
Qed.

Lemma annotated_routes_length (svcs : list corev1.Service) :
  Forall passable svcs →
  length (omap service_route svcs) =
  length (filter (λ svc, is_Some (declared_path svc)) svcs).
Proof.
  induction 1 as [|svc svcs Hp Hall IH]; [done|].
  rewrite filter_cons. csimpl.
  destruct (declared_path svc) as [url|] eqn:Hd.
  - destruct Hp as [?|[p Hp]]; [congruence|].
    rewrite (service_route_Some svc url p Hd Hp).
    rewrite decide_True by by eexists. simpl. by rewrite IH.
  - rewrite (service_route_None svc Hd).
    rewrite decide_False by by intros [? ?]. done.
Qed.

(** X1.  Go visits the annotations of a service in an unspecified order;
    the inner loop of [RegisterExtension] gives the same result, state and
    panic included, for every two orders. *)
Theorem annotation_order_irrelevant (svc : corev1.Service)
    (l1 l2 : list (string * string)) (fr : Frame) :
  l1 ≡ₚ map_to_list (metav1.Annotations (corev1.ObjectMeta svc)) →
  l2 ≡ₚ map_to_list (metav1.Annotations (corev1.ObjectMeta svc)) →
  range l1 (λ kv, RegisterExtension_annotation svc kv.1 kv.2) fr =
  range l2 (λ kv, RegisterExtension_annotation svc kv.1 kv.2) fr.
Proof.
  intros H1 H2.
  by rewrite !RegisterExtension_service_any_order.
Qed.

(** X3.  A discovery pass that returns after a successful list query adds
    exactly one web service, rooted at [/] with the JSON defaults; its
    routes are the POST routes of the annotated services, one each, in
    listing order, and the log gains the info entry and one debug entry per
    annotated service. *)
Theorem completed_pass (r : Resource) (namespace : string)
    (st st' : State) (svcs : list corev1.Service) :
  list_answer r namespace = inl {| corev1.Items := svcs |} →
  RegisterExtension r namespace st = Returned st' tt →
  ∃ w,
    restful.webServices (container st') =
      restful.webServices (container st) ++ [w] ∧
    restful.rootPath w = "/" ∧
    restful.consumes w = [restful.MIME_JSON] ∧
    restful.produces w = [restful.MIME_JSON] ∧
    restful.routes w = omap service_route svcs ∧
    length (restful.routes w) =
      length (filter (λ svc, is_Some (declared_path svc)) svcs) ∧
    Log st' = Log st ++ info_entry "Adding API for extensions"
                     :: (debug_entry <$> omap declared_path svcs).
Proof.
  intros Hl Hrun.
  assert (Forall passable svcs) as Hall.
  { apply (RegisterExtension_returns_iff r namespace st svcs Hl).
    by rewrite Hrun. }
  rewrite (RegisterExtension_returns _ _ _ _ Hl Hall) in Hrun.
  injection Hrun as <-. exists (extension_WebService svcs). simpl.
  split_and!; try done. by apply annotated_routes_length.
Qed.

(** X4.  Whatever a discovery pass does (list error, return or panic), it
    never removes or changes what the container and the log already hold:
    both only grow at the end, the container by at most one web service,
    and by none when the pass does not return. *)
Theorem pass_keeps_container (r : Resource) (namespace : string)
    (st : State) :
  restful.webServices (container st) `prefix_of`
    restful.webServices (container (final (RegisterExtension r namespace st))) ∧
  (length (restful.webServices
             (container (final (RegisterExtension r namespace st))))
   ≤ S (length (restful.webServices (container st))))%nat ∧
  Log st `prefix_of` Log (final (RegisterExtension r namespace st)) ∧
  (¬ returns (RegisterExtension r namespace st) →
   container (final (RegisterExtension r namespace st)) = container st).
Proof.
  destruct (list_answer r namespace) as [[svcs]|err] eqn:Hl.
  - destruct (first_not_passable svcs)
      as [Hall|(pre & bad & post & url & -> & Hpre & Hd & Hf)].
    + rewrite (RegisterExtension_returns _ _ _ _ Hl Hall). simpl.
      split_and!; [by apply prefix_app_r| |by apply prefix_app_r|done].
      rewrite length_app. simpl. lia.
    + rewrite (RegisterExtension_panics _ _ _ _ _ _ _ Hl Hpre Hd Hf). simpl.
      split_and!; [done|lia|by apply prefix_app_r|done].
  - rewrite (RegisterExtension_list_error _ _ _ _ Hl). simpl.
    split_and!; [done|lia|by apply prefix_app_r|done].
Qed.

(** X1 at the service [foo], its two annotations taken in both orders. *)
Lemma annotation_order_irrelevant_witness :
  [("owner", "team-a"); (urlKey, "/foo-ext")]
    ≡ₚ map_to_list (metav1.Annotations (corev1.ObjectMeta foo)) ∧
  [(urlKey, "/foo-ext"); ("owner", "team-a")]
    ≡ₚ map_to_list (metav1.Annotations (corev1.ObjectMeta foo)) ∧
  range [("owner", "team-a"); (urlKey, "/foo-ext")]
    (λ kv, RegisterExtension_annotation foo kv.1 kv.2)
    {| outer := emptyState; ws := json_WebService "/" |} =
  range [(urlKey, "/foo-ext"); ("owner", "team-a")]
    (λ kv, RegisterExtension_annotation foo kv.1 kv.2)
    {| outer := emptyState; ws := json_WebService "/" |}.
Proof.
  assert ([("owner", "team-a"); (urlKey, "/foo-ext")]
            ≡ₚ map_to_list (metav1.Annotations (corev1.ObjectMeta foo)))
    as H1.
  { vm_compute. first [reflexivity | apply perm_swap]. }
  assert ([(urlKey, "/foo-ext"); ("owner", "team-a")]
            ≡ₚ map_to_list (metav1.Annotations (corev1.ObjectMeta foo)))
    as H2.
  { vm_compute. first [reflexivity | apply perm_swap]. }
  split_and!; [exact H1|exact H2|].
  exact (annotation_order_irrelevant foo _ _ _ H1 H2).
Defined.

(** X3 at the pass over [foo] and [bar]. *)
Lemma completed_pass_witness :
  list_answer (fakeResource (inl [foo; bar])) "default" =
    inl {| corev1.Items := [foo; bar] |} ∧
  RegisterExtension (fakeResource (inl [foo; bar])) "default" emptyState =
    Returned (final (RegisterExtension (fakeResource (inl [foo; bar]))
                       "default" emptyState)) tt ∧
  ∃ w,
    restful.webServices
      (container (final (RegisterExtension (fakeResource (inl [foo; bar]))
                           "default" emptyState))) =
      restful.webServices (container emptyState) ++ [w] ∧
    restful.rootPath w = "/" ∧
    restful.consumes w = [restful.MIME_JSON] ∧
    restful.produces w = [restful.MIME_JSON] ∧
    restful.routes w = omap service_route [foo; bar] ∧
    length (restful.routes w) =
      length (filter (λ svc, is_Some (declared_path svc)) [foo; bar]) ∧
    Log (final (RegisterExtension (fakeResource (inl [foo; bar]))
                  "default" emptyState)) =
      Log emptyState ++ info_entry "Adding API for extensions"
                     :: (debug_entry <$> omap declared_path [foo; bar]).
Proof.
  split_and!; [reflexivity..|].
  apply (completed_pass (fakeResource (inl [foo; bar])) "default"
           emptyState _ [foo; bar]); reflexivity.
Defined.

Lemma services_loop_same_data (svcs svcs' : list corev1.Service)
    (fr : Frame) :
  Forall2 same_extension_data svcs svcs' →
  range svcs RegisterExtension_service fr =
  range svcs' RegisterExtension_service fr.
Proof.
  intros Hsame. revert fr.
  induction Hsame as [|svc svc' svcs svcs' (Hn & Hd & Hp) Hsame IH];
    intros fr; [done|].
  simpl. rewrite !bind_run, !RegisterExtension_service_eq, <- Hd, <- Hp.
  unfold extension_of. rewrite <- Hn.
  destruct (declared_path svc) as [url|]; [|by apply IH].
  destruct (first_port svc) as [p|]; [by apply IH|done].
Qed.

(** X5.  A discovery pass reads only the name, the endpoint annotation and
    the first port of each service: two list answers whose services agree
    on these, position by position, give the same result, whatever their
    other annotations and further ports are. *)
Theorem pass_reads_name_path_first_port (r r' : Resource)
    (namespace : string) (st : State) (svcs svcs' : list corev1.Service) :
  list_answer r namespace = inl {| corev1.Items := svcs |} →
  list_answer r' namespace = inl {| corev1.Items := svcs' |} →
  Forall2 same_extension_data svcs svcs' →
  RegisterExtension r namespace st = RegisterExtension r' namespace st.
Proof.
  unfold list_answer, RegisterExtension. intros -> -> Hsame.
  rewrite !bind_run. simpl. rewrite !bind_run. unfold with_ws.
  by rewrite (services_loop_same_data svcs svcs').
Qed.

(** X5 at [foo] and [foo'], which differ in their other annotation and in
    their further ports. *)
Lemma pass_reads_name_path_first_port_witness :
  list_answer (fakeResource (inl [foo])) "default" =
    inl {| corev1.Items := [foo] |} ∧
  list_answer (fakeResource (inl [foo'])) "default" =
    inl {| corev1.Items := [foo'] |} ∧
  Forall2 same_extension_data [foo] [foo'] ∧
  RegisterExtension (fakeResource (inl [foo])) "default" emptyState =
  RegisterExtension (fakeResource (inl [foo'])) "default" emptyState.
Proof.
  assert (Forall2 same_extension_data [foo] [foo']) as Hsame.
  { repeat constructor. }
  split_and!; [reflexivity|reflexivity|exact Hsame|].
  exact (pass_reads_name_path_first_port (fakeResource (inl [foo]))
           (fakeResource (inl [foo'])) "default" emptyState [foo] [foo']
           eq_refl eq_refl Hsame).
Defined.

Lemma services_loop_stops (pre post : list corev1.Service)
    (bad : corev1.Service) (fr : Frame) :
  ¬ passable bad →
  range (pre ++ bad :: post) RegisterExtension_service fr =
  range (pre ++ [bad]) RegisterExtension_service fr.
Proof.
  intros Hbad. rewrite !range_app, !bind_run.
  destruct (range pre RegisterExtension_service fr) as [fr' a|fr' p]; [|done].
  simpl. rewrite !bind_run, RegisterExtension_service_eq.
  destruct (declared_path bad) as [url|] eqn:Hd; [|by destruct Hbad; left].
  destruct (first_port bad) as [p|] eqn:Hp; [|done].
  destruct Hbad. right. by eexists.
Qed.

(** X6.  Once a service with the endpoint annotation and no port is
    reached the pass panics, and nothing listed after that service is looked
    at: the result is the same whatever follows it. *)
Theorem panic_ignores_later_services (r r' : Resource) (namespace : string)
    (st : State) (pre post post' : list corev1.Service)
    (bad : corev1.Service) :
  list_answer r namespace = inl {| corev1.Items := pre ++ bad :: post |} →
  list_answer r' namespace = inl {| corev1.Items := pre ++ bad :: post' |} →
  is_Some (metav1.Annotations (corev1.ObjectMeta bad) !! urlKey) →
  corev1.Ports (corev1.Spec bad) = [] →
  ¬ returns (RegisterExtension r namespace st) ∧
  RegisterExtension r namespace st = RegisterExtension r' namespace st.
Proof.
  intros Hl Hl' Hann Hports.
  assert (¬ passable bad) as Hbad.
  { rewrite passable_ports. intros Hp. by apply Hp. }
  split.
  - rewrite (RegisterExtension_returns_iff _ _ _ _ Hl), Forall_app, Forall_cons.
    by intros (_ & ? & _).
  - unfold list_answer in Hl, Hl'. unfold RegisterExtension.
    rewrite Hl, Hl'. rewrite !bind_run. simpl. rewrite !bind_run.
    unfold with_ws. simpl.
    by rewrite (services_loop_stops pre post), (services_loop_stops pre post').
Qed.

(** X6 at [portless], followed by nothing or by [foo]. *)
Lemma panic_ignores_later_services_witness :
  list_answer (fakeResource (inl ([bar] ++ portless :: []))) "default" =
    inl {| corev1.Items := [bar] ++ portless :: [] |} ∧
  list_answer (fakeResource (inl ([bar] ++ portless :: [foo]))) "default" =
    inl {| corev1.Items := [bar] ++ portless :: [foo] |} ∧
  is_Some (metav1.Annotations (corev1.ObjectMeta portless) !! urlKey) ∧
  corev1.Ports (corev1.Spec portless) = [] ∧
  ¬ returns (RegisterExtension
               (fakeResource (inl ([bar] ++ portless :: []))) "default"
               emptyState) ∧
  RegisterExtension (fakeResource (inl ([bar] ++ portless :: [])))
    "default" emptyState =
  RegisterExtension (fakeResource (inl ([bar] ++ portless :: [foo])))
    "default" emptyState.
Proof.
  assert (is_Some (metav1.Annotations (corev1.ObjectMeta portless) !! urlKey))
    as Hann.
  { by exists "/portless". }
  split_and!; [reflexivity|reflexivity|exact Hann|reflexivity|..];
    apply (panic_ignores_later_services
             (fakeResource (inl ([bar] ++ portless :: [])))
             (fakeResource (inl ([bar] ++ portless :: [foo])))
             "default" emptyState [bar] [] [foo] portless
             eq_refl eq_refl Hann eq_refl).
Defined.

(** X9.  [getPort] tells port numbers apart: for two services with
    non-empty port lists it returns the same string exactly when their first
    port numbers are equal, whatever their further ports are. *)
Theorem getPort_distinguishes_ports {S : Type} (svc svc' : corev1.Service)
    (p p' : corev1.ServicePort) (ps ps' : list corev1.ServicePort) (s : S) :
  corev1.Ports (corev1.Spec svc) = p :: ps →
  corev1.Ports (corev1.Spec svc') = p' :: ps' →
  getPort svc s = getPort svc' s ↔ corev1.Port p = corev1.Port p'.
Proof.
  intros Hp Hp'. unfold getPort. rewrite Hp, Hp'. simpl. split.
  - intros [= Heq]. by apply (inj pretty) in Heq.
  - by intros ->.
Qed.

(** X9 at [foo] (ports 8080, 9090) and [foo'] (port 8080). *)
Lemma getPort_distinguishes_ports_witness :
  corev1.Ports (corev1.Spec foo) =
    {| corev1.Port := 8080 |} :: [{| corev1.Port := 9090 |}] ∧
  corev1.Ports (corev1.Spec foo') = {| corev1.Port := 8080 |} :: [] ∧
  (getPort foo emptyState = getPort foo' emptyState ↔
   corev1.Port {| corev1.Port := 8080 |} =
   corev1.Port {| corev1.Port := 8080 |}).
Proof.
  split_and!; [reflexivity|reflexivity|].
  apply (getPort_distinguishes_ports foo foo'
           {| corev1.Port := 8080 |} {| corev1.Port := 8080 |}
           [{| corev1.Port := 9090 |}] [] emptyState);
    reflexivity.
Defined.

Lemma string_app_nil_l (s : string) : "" +:+ s = s.
Proof. reflexivity. Qed.

Lemma string_app_cons (c : ascii) (s t : string) :
  String c s +:+ t = String c (s +:+ t).
Proof. reflexivity. Qed.

Lemma colon_free_app (s t : string) :
  colon_free (s +:+ t) ↔ colon_free s ∧ colon_free t.
Proof.
  induction s as [|c s IH].
  - rewrite string_app_nil_l. simpl. tauto.
  - rewrite string_app_cons. simpl. rewrite IH. tauto.
Qed.

Lemma colon_free_pretty_N_go (x : N) (s : string) :
  colon_free s → colon_free (pretty_N_go x s).
Proof.
  revert s. induction (N.lt_wf_0 x) as [x _ IH]; intros s Hs.
  assert (x = 0 ∨ 0 < x)%N as [->|?] by lia.
  - by rewrite pretty_N_go_0.
  - rewrite pretty_N_go_step by done. apply IH.
    { by apply N.div_lt. }
    simpl. split; [|done].
    unfold pretty_N_char. by repeat case_match.
Qed.

Lemma colon_free_Itoa (i : Z) : colon_free (strconv.Itoa i).
Proof.
  assert (∀ x : N, colon_free (pretty x)) as HN.
  { intros x. unfold pretty, pretty_N. case_decide; [by simpl|].
    by apply colon_free_pretty_N_go. }
  unfold strconv.Itoa, pretty, pretty_Z. destruct i as [|x|x].
  - by simpl.
  - apply HN.
  - apply colon_free_app. split; [by simpl|]. apply HN.
Qed.

Lemma string_length_app (s t : string) :
  String.length (s +:+ t) = (String.length s + String.length t)%nat.
Proof.
  induction s as [|c s IH]; [done|].
  rewrite string_app_cons. simpl. by rewrite IH.
Qed.

Lemma string_app_inj_r (s1 s2 t : string) : s1 +:+ t = s2 +:+ t → s1 = s2.
Proof.
  revert s2. induction s1 as [|c s1 IH]; intros [|c' s2] Heq.
  - done.
  - apply (f_equal String.length) in Heq.
    rewrite !string_length_app in Heq. simpl in Heq. lia.
  - apply (f_equal String.length) in Heq.
    rewrite !string_length_app in Heq. simpl in Heq. lia.
  - rewrite !string_app_cons in Heq. injection Heq as -> Heq.
    by rewrite (IH _ Heq).
Qed.

(** A string is cut at its last colon in one way only. *)
Lemma last_colon_split (n1 n2 t1 t2 : string) :
  colon_free t1 → colon_free t2 →
  n1 +:+ ":" +:+ t1 = n2 +:+ ":" +:+ t2 → n1 = n2 ∧ t1 = t2.
Proof.
  intros Ht1 Ht2. revert n2.
  induction n1 as [|c n1 IH]; intros [|c' n2] Heq;
    rewrite ?string_app_nil_l, ?string_app_cons, ?string_app_nil_l in Heq.
  - by injection Heq as Heq.
  - injection Heq as Hc Heq. rewrite Heq in Ht1.
    apply colon_free_app in Ht1 as [_ Ht1]. by destruct Ht1.
  - injection Heq as Hc Heq. rewrite <- Heq in Ht2.
    apply colon_free_app in Ht2 as [_ Ht2]. by destruct Ht2.
  - injection Heq as Hc Heq. destruct (IH _ Heq) as [Hn Ht].
    by rewrite Hc, Hn.
Qed.

(** X10.  For extensions whose port is the decimal rendering of an
    integer, as [getPort] makes it, the target string [HandleExtension]
    parses determines the extension's name and port: two such extensions
    with the same target have the same name and the same port, even when
    names contain colons or slashes. *)
Theorem target_string_injective (ext1 ext2 : Extension) (p1 p2 : Z) :
  Port ext1 = strconv.Itoa p1 → Port ext2 = strconv.Itoa p2 →
  target_string ext1 = target_string ext2 →
  Name ext1 = Name ext2 ∧ Port ext1 = Port ext2 ∧ p1 = p2.
Proof.
  unfold target_string. intros Hp1 Hp2 Heq.
  apply (inj (String.app "http://")) in Heq.
  apply last_colon_split in Heq as [Hname Hport].
  - apply string_app_inj_r in Hport. split_and!; [done..|].
    rewrite Hp1, Hp2 in Hport. by apply (inj pretty) in Hport.
  - apply colon_free_app. split; [|by simpl].
    rewrite Hp1. apply colon_free_Itoa.
  - apply colon_free_app. split; [|by simpl].
    rewrite Hp2. apply colon_free_Itoa.
Qed.

(** X10 at two copies of the extension of [foo]. *)
Lemma target_string_injective_witness :
  Port {| Name := "foo"; URL := "/foo-ext"; Port := "8080" |} =
    strconv.Itoa 8080 ∧
  Port {| Name := "foo"; URL := "/other"; Port := "8080" |} =
    strconv.Itoa 8080 ∧
  target_string {| Name := "foo"; URL := "/foo-ext"; Port := "8080" |} =
    target_string {| Name := "foo"; URL := "/other"; Port := "8080" |} ∧
  Name {| Name := "foo"; URL := "/foo-ext"; Port := "8080" |} =
    Name {| Name := "foo"; URL := "/other"; Port := "8080" |} ∧
  Port {| Name := "foo"; URL := "/foo-ext"; Port := "8080" |} =
    Port {| Name := "foo"; URL := "/other"; Port := "8080" |} ∧
  8080 = 8080.
Proof.
  split_and!; [reflexivity|reflexivity|reflexivity|..];
    apply (target_string_injective
             {| Name := "foo"; URL := "/foo-ext"; Port := "8080" |}
             {| Name := "foo"; URL := "/other"; Port := "8080" |}
             8080 8080 eq_refl eq_refl eq_refl).
Defined.

(** Without the decimal port the target does not determine the extension:
    a colon can sit in the name or in the port. *)
Example target_string_ambiguous :
  target_string {| Name := "a:1"; URL := "/x"; Port := "2" |} =
  target_string {| Name := "a"; URL := "/x"; Port := "1:2" |}.
Proof. reflexivity. Qed.

(** X11.  Whenever [RegisterEndpoints] returns it has appended one web
    service rooted at [/v1/namespaces], leaving the earlier web services and
    log entries in place; its 19 routes consume and produce JSON, are bound
    to handlers of the resource, and no two of them have the same method
    and path. *)
Theorem RegisterEndpoints_routes_unambiguous (r : Resource) (st st' : State) :
  RegisterEndpoints r st = Returned st' tt →
  ∃ w,
    restful.webServices (container st') =
      restful.webServices (container st) ++ [w] ∧
    Log st `prefix_of` Log st' ∧
    restful.rootPath w = "/v1/namespaces" ∧
    length (restful.routes w) = 19%nat ∧
    NoDup (route_key <$> restful.routes w) ∧
    Forall (λ rt, restful.Consumes rt = [restful.MIME_JSON] ∧
                  restful.Produces rt = [restful.MIME_JSON] ∧
                  ∃ m, restful.Function rt = Some (ResourceHandler m))
           (restful.routes w).
Proof.
  rewrite RegisterEndpoints_eq. intros Heq. injection Heq as Heq.
  subst st'. exists primary_WebService. simpl.
  split_and!; [done|by apply prefix_app_r|done|done| |].
  - compute_done.
  - repeat constructor; by eexists.
Qed.

(** X11 at the empty container. *)
Lemma RegisterEndpoints_routes_unambiguous_witness :
  RegisterEndpoints (fakeResource (inl [])) emptyState =
    Returned (final (RegisterEndpoints (fakeResource (inl [])) emptyState))
      tt ∧
  ∃ w,
    restful.webServices
      (container (final (RegisterEndpoints (fakeResource (inl []))
                           emptyState))) =
      restful.webServices (container emptyState) ++ [w] ∧
    Log emptyState `prefix_of`
      Log (final (RegisterEndpoints (fakeResource (inl [])) emptyState)) ∧
    restful.rootPath w = "/v1/namespaces" ∧
    length (restful.routes w) = 19%nat ∧
    NoDup (route_key <$> restful.routes w) ∧
    Forall (λ rt, restful.Consumes rt = [restful.MIME_JSON] ∧
                  restful.Produces rt = [restful.MIME_JSON] ∧
                  ∃ m, restful.Function rt = Some (ResourceHandler m))
           (restful.routes w).
Proof.
  assert (RegisterEndpoints (fakeResource (inl [])) emptyState =
            Returned (final (RegisterEndpoints (fakeResource (inl []))
                               emptyState)) tt) as Hrun.
  { vm_compute. reflexivity. }
  split; [exact Hrun|].
  exact (RegisterEndpoints_routes_unambiguous (fakeResource (inl []))
           emptyState _ Hrun).
Defined.

Lemma passable_Permutation (svcs svcs' : list corev1.Service) :
  svcs ≡ₚ svcs' → Forall passable svcs ↔ Forall passable svcs'.
Proof.
  intros Hp. rewrite !Forall_forall.
  split; intros Hall svc Hin; apply Hall.
  - by rewrite Hp.
  - by rewrite <- Hp.
Qed.

(** X12.  The cluster does not fix the order of the listed services.  For
    two list answers that hold the same services in different orders, one
    pass returns exactly when the other does, and when they return the web
    services they add hold the same routes up to order. *)
Theorem listing_order_permutes_routes (r r' : Resource)
    (namespace : string) (st : State) (svcs svcs' : list corev1.Service) :
  list_answer r namespace = inl {| corev1.Items := svcs |} →
  list_answer r' namespace = inl {| corev1.Items := svcs' |} →
  svcs ≡ₚ svcs' →
  (returns (RegisterExtension r namespace st) ↔
   returns (RegisterExtension r' namespace st)) ∧
  (returns (RegisterExtension r namespace st) →
   ∃ w w',
     restful.webServices
       (container (final (RegisterExtension r namespace st))) =
       restful.webServices (container st) ++ [w] ∧
     restful.webServices
       (container (final (RegisterExtension r' namespace st))) =
       restful.webServices (container st) ++ [w'] ∧
     restful.routes w ≡ₚ restful.routes w').
Proof.
  intros Hl Hl' Hperm.
  rewrite (RegisterExtension_returns_iff _ _ _ _ Hl).
  rewrite (RegisterExtension_returns_iff _ _ _ _ Hl').
  split; [by apply passable_Permutation|].
  intros Hall.
  assert (Forall passable svcs') as Hall'.
  { by apply (passable_Permutation svcs svcs'). }
  rewrite (RegisterExtension_returns _ _ _ _ Hl Hall).
  rewrite (RegisterExtension_returns _ _ _ _ Hl' Hall').
  exists (extension_WebService svcs), (extension_WebService svcs').
  simpl. split_and!; [done|done|]. by rewrite Hperm.
Qed.

(** X12 at [foo] and [first], listed in both orders. *)
Lemma listing_order_permutes_routes_witness :
  list_answer (fakeResource (inl [foo; first])) "default" =
    inl {| corev1.Items := [foo; first] |} ∧
  list_answer (fakeResource (inl [first; foo])) "default" =
    inl {| corev1.Items := [first; foo] |} ∧
  [foo; first] ≡ₚ [first; foo] ∧
  (returns (RegisterExtension (fakeResource (inl [foo; first])) "default"
              emptyState) ↔
   returns (RegisterExtension (fakeResource (inl [first; foo])) "default"
              emptyState)) ∧
  (returns (RegisterExtension (fakeResource (inl [foo; first])) "default"
              emptyState) →
   ∃ w w',
     restful.webServices
       (container (final (RegisterExtension
                            (fakeResource (inl [foo; first])) "default"
                            emptyState))) =
       restful.webServices (container emptyState) ++ [w] ∧
     restful.webServices
       (container (final (RegisterExtension
                            (fakeResource (inl [first; foo])) "default"
                            emptyState))) =
       restful.webServices (container emptyState) ++ [w'] ∧
     restful.routes w ≡ₚ restful.routes w').
Proof.
  split_and!; [reflexivity|reflexivity|apply perm_swap|..];
    apply (listing_order_permutes_routes
             (fakeResource (inl [foo; first]))
             (fakeResource (inl [first; foo])) "default" emptyState
             [foo; first] [first; foo] eq_refl eq_refl (perm_swap _ _ _)).
Defined.
